(** * ImageEventEmitter: the image component's event-emitter interface

    A verification development for
    [ReactCommon/react/renderer/components/image/ABI45_0_0ImageEventEmitter.h].

    The header is a class declaration without bodies:

<<
    class ImageEventEmitter : public ViewEventEmitter {
     public:
      using ViewEventEmitter::ViewEventEmitter;

      void onLoadStart() const;
      void onLoad() const;
      void onLoadEnd() const;
      void onProgress(double) const;
      void onError() const;
      void onPartialLoad() const;
    };
>>

    The development has three layers.
    - [Cpp]: the vocabulary of the declaration (types, access, members, classes,
      member lookup through a base).
    - [Decl] and [Emitter]: the declaration itself, and what it denotes: the six
      invocations, the types of conforming method bodies and their calls.
    - [Lifecycle]: the order in which the image-loading side calls the six
      methods during one load attempt.
    [CallSites] adds the rule for calls on a const receiver. *)

From Stdlib Require Import String List Bool Arith Lia PrimFloat.
Import ListNotations.

Local Open Scope string_scope.
Local Open Scope list_scope.

(* ------------------------------------------------------------------------- *)
(** ** The vocabulary of a class declaration *)

Module Cpp.

(** The types that occur in the header: [void] and [double]. *)
Inductive cpp_type : Type :=
| TVoid
| TDouble.

Inductive access : Type :=
| Public
| Protected
| Private.

(** A member function declaration [ret name(params) const?;]. *)
Record method_decl : Type := MethodDecl {
  m_name : string;
  m_ret : cpp_type;
  m_params : list cpp_type;
  m_const : bool
}.

(** What a class body may hold.  The header uses the first two forms only; the
    third is what an attribute would look like, so that "declares no attribute"
    is a fact about the declaration and not about the vocabulary. *)
Inductive member : Type :=
| UsingConstructors (base : string)
| Method (d : method_decl)
| DataMember (name : string) (ty : cpp_type) (is_mutable : bool).

Record class_decl : Type := ClassDecl {
  c_name : string;
  c_bases : list (access * string);
  c_members : list (access * member)
}.

Definition access_eqb (a b : access) : bool :=
  match a, b with
  | Public, Public | Protected, Protected | Private, Private => true
  | _, _ => false
  end.

(** The member functions a class body declares, with their access. *)
Fixpoint own_methods_acc (ms : list (access * member)) : list (access * method_decl) :=
  match ms with
  | [] => []
  | (a, Method d) :: rest => (a, d) :: own_methods_acc rest
  | _ :: rest => own_methods_acc rest
  end.

Definition own_methods (c : class_decl) : list method_decl :=
  map snd (own_methods_acc (c_members c)).

(** The data members a class body declares. *)
Fixpoint own_fields_of (ms : list (access * member)) : list (string * cpp_type) :=
  match ms with
  | [] => []
  | (_, DataMember n t _) :: rest => (n, t) :: own_fields_of rest
  | _ :: rest => own_fields_of rest
  end.

Definition own_fields (c : class_decl) : list (string * cpp_type) :=
  own_fields_of (c_members c).

(** The bases whose constructors a class body pulls in with a using-declaration. *)
Fixpoint inherited_constructors_of (ms : list (access * member)) : list (access * string) :=
  match ms with
  | [] => []
  | (a, UsingConstructors b) :: rest => (a, b) :: inherited_constructors_of rest
  | _ :: rest => inherited_constructors_of rest
  end.

Definition inherited_constructors (c : class_decl) : list (access * string) :=
  inherited_constructors_of (c_members c).

(** The members of the public section. *)
Definition public_members (c : class_decl) : list member :=
  map snd (filter (fun am => access_eqb (fst am) Public) (c_members c)).

Definition public_method_names (c : class_decl) : list string :=
  map (fun ad => m_name (snd ad))
      (filter (fun ad => access_eqb (fst ad) Public) (own_methods_acc (c_members c))).

(** Lookup of a member function by name in one class body. *)
Fixpoint find_method (ms : list (access * method_decl)) (n : string)
  : option (access * method_decl) :=
  match ms with
  | [] => None
  | (a, d) :: rest => if String.eqb (m_name d) n then Some (a, d) else find_method rest n
  end.

Definition declares (c : class_decl) (n : string) : bool :=
  match find_method (own_methods_acc (c_members c)) n with
  | Some _ => true
  | None => false
  end.

(** Where a name found in a class comes from. *)
Inductive origin : Type :=
| Own
| Inherited (from : string).

(** Access of a base member seen through the derived class: a private member
    of the base is not accessible; otherwise the more restrictive of the
    member's access and the access of the inheritance. *)
Definition inherited_access (how a : access) : option access :=
  match a, how with
  | Private, _ => None
  | _, Private => Some Private
  | Public, Public => Some Public
  | _, _ => Some Protected
  end.

(** The class declarations that are in scope, by name. *)
Definition class_env : Type := string -> option class_decl.

Definition lookup_in_base (env : class_env) (n : string) (hb : access * string)
  : option (origin * access * method_decl) :=
  match env (snd hb) with
  | None => None
  | Some bc =>
      match find_method (own_methods_acc (c_members bc)) n with
      | None => None
      | Some (a, d) =>
          match inherited_access (fst hb) a with
          | None => None
          | Some a' => Some (Inherited (snd hb), a', d)
          end
      end
  end.

Fixpoint first_some {A B : Type} (f : A -> option B) (l : list A) : option B :=
  match l with
  | [] => None
  | x :: rest => match f x with Some y => Some y | None => first_some f rest end
  end.

(** Member-function lookup in class scope: a declaration of the class itself
    hides whatever a base declares under the same name; a name the class does
    not declare is looked up in its bases.  A base's declaration stands for all
    the members visible in it. *)
Definition resolve (env : class_env) (c : class_decl) (n : string)
  : option (origin * access * method_decl) :=
  match find_method (own_methods_acc (c_members c)) n with
  | Some (a, d) => Some (Own, a, d)
  | None => first_some (lookup_in_base env n) (c_bases c)
  end.

Definition origin_of (r : option (origin * access * method_decl)) : option origin :=
  option_map (fun x => fst (fst x)) r.

End Cpp.

(* ------------------------------------------------------------------------- *)
(** ** The declaration of [ImageEventEmitter] *)

Module Decl.
Import Cpp.

Definition onLoadStart_decl : method_decl := MethodDecl "onLoadStart" TVoid [] true.
Definition onLoad_decl : method_decl := MethodDecl "onLoad" TVoid [] true.
Definition onLoadEnd_decl : method_decl := MethodDecl "onLoadEnd" TVoid [] true.
Definition onProgress_decl : method_decl := MethodDecl "onProgress" TVoid [TDouble] true.
Definition onError_decl : method_decl := MethodDecl "onError" TVoid [] true.
Definition onPartialLoad_decl : method_decl := MethodDecl "onPartialLoad" TVoid [] true.

(** [class ImageEventEmitter : public ViewEventEmitter { public: ... };] *)
Definition ImageEventEmitter : class_decl :=
  {| c_name := "ImageEventEmitter";
     c_bases := [(Public, "ViewEventEmitter")];
     c_members :=
       [ (Public, UsingConstructors "ViewEventEmitter");
         (Public, Method onLoadStart_decl);
         (Public, Method onLoad_decl);
         (Public, Method onLoadEnd_decl);
         (Public, Method onProgress_decl);
         (Public, Method onError_decl);
         (Public, Method onPartialLoad_decl) ] |}.

(** The six notification methods, in declaration order. *)
Definition notification_names : list string :=
  ["onLoadStart"; "onLoad"; "onLoadEnd"; "onProgress"; "onError"; "onPartialLoad"].

Definition is_notification_name (n : string) : bool :=
  existsb (String.eqb n) notification_names.

Definition is_notification_method (m : member) : bool :=
  match m with
  | Method d => is_notification_name (m_name d)
  | _ => false
  end.

(** The environment in which the header is read: the included header brings
    the declaration of the base class into scope under its name. *)
Definition env_with (base : class_decl) : class_env :=
  fun n => if String.eqb n (c_name base) then Some base else None.

End Decl.

(* ------------------------------------------------------------------------- *)
(** ** What the declaration denotes *)

Module Emitter.
Import Cpp Decl.

(** C++ [double] is IEEE 754 binary64, the kernel's primitive floats. *)
Definition double : Type := float.

Definition denote (t : cpp_type) : Type :=
  match t with
  | TVoid => unit
  | TDouble => double
  end.

Fixpoint denote_params (ps : list cpp_type) : Type :=
  match ps with
  | [] => unit
  | p :: rest => (denote p * denote_params rest)%type
  end.

(** Argument values as they appear at a call site. *)
Inductive value : Type :=
| VDouble (x : double).

Definition has_type (v : value) (t : cpp_type) : bool :=
  match v, t with
  | VDouble _, TDouble => true
  | VDouble _, TVoid => false
  end.

Fixpoint well_typed_args (args : list value) (ps : list cpp_type) : bool :=
  match args, ps with
  | [], [] => true
  | v :: args', p :: ps' => has_type v p && well_typed_args args' ps'
  | _, _ => false
  end.

(** A call [e.n(args)] from outside the class, judged by the class's own
    declarations: it is accepted when [n] names a public member function
    declared by the class and the arguments match its parameter list.  Nothing
    else is checked: a declaration carries types, not ranges.  For a name the
    class does not declare the answer [false] says only that no declaration of
    the class admits the call; members that come from a base are found by
    [resolve]. *)
Definition accepts_call (c : class_decl) (n : string) (args : list value) : bool :=
  match find_method (own_methods_acc (c_members c)) n with
  | Some (Public, d) => well_typed_args args (m_params d)
  | _ => false
  end.

(** The six invocations the class offers; the constructors carry the names
    and the parameters of the declared methods. *)
Inductive invocation : Type :=
| onLoadStart
| onLoad
| onLoadEnd
| onProgress (progress : double)
| onError
| onPartialLoad.

Definition method_of (i : invocation) : method_decl :=
  match i with
  | onLoadStart => onLoadStart_decl
  | onLoad => onLoad_decl
  | onLoadEnd => onLoadEnd_decl
  | onProgress _ => onProgress_decl
  | onError => onError_decl
  | onPartialLoad => onPartialLoad_decl
  end.

Definition name_of (i : invocation) : string := m_name (method_of i).

Definition arguments (i : invocation) : list value :=
  match i with
  | onProgress v => [VDouble v]
  | _ => []
  end.

Definition typed_arguments (i : invocation) : denote_params (m_params (method_of i)) :=
  match i as j return denote_params (m_params (method_of j)) with
  | onProgress v => (v, tt)
  | onLoadStart | onLoad | onLoadEnd | onError | onPartialLoad => tt
  end.

(** Object state.  The state a class adds to its base is the tuple of its own
    data members; an object of a class with one base is the base subobject
    next to that tuple. *)
Fixpoint field_store (fs : list (string * cpp_type)) : Type :=
  match fs with
  | [] => unit
  | (_, t) :: rest => (denote t * field_store rest)%type
  end.

Definition own_state (c : class_decl) : Type := field_store (own_fields c).

Record object (B : Type) (c : class_decl) : Type := Object {
  base_subobject : B;
  own_part : own_state c
}.
Arguments Object {B c} _ _.
Arguments base_subobject {B c} _.
Arguments own_part {B c} _.

Section Bodies.
(** [Self] is the state of the receiver, base subobject included; [World] is
    whatever lies outside it (the event delivery the base class provides).
    The bodies of the six methods are not in the header; a body is any
    function of the type below. *)
Variables Self World : Type.

(** A member-function body gets the receiver and hands back the receiver as
    the call leaves it.  [const] in the declaration does not narrow this type:
    a const body may still write the [mutable] members of the object, or cast
    const away, so the declaration alone does not make the receiver come back
    as it went in. *)
Definition body (d : method_decl) : Type :=
  Self -> denote_params (m_params d) -> World -> denote (m_ret d) * Self * World.

Record outcome (R : Type) : Type := Outcome {
  returned : R;
  receiver : Self;
  world : World
}.
Arguments Outcome {R} _ _ _.
Arguments returned {R} _.
Arguments receiver {R} _.
Arguments world {R} _.

Definition invoke (d : method_decl) (f : body d) (self : Self)
           (args : denote_params (m_params d)) (w : World)
  : outcome (denote (m_ret d)) :=
  let r := f self args w in Outcome (fst (fst r)) (snd (fst r)) (snd r).

(** An implementation of the class gives a body to each of its methods. *)
Definition implementation : Type := forall i : invocation, body (method_of i).

Definition call (impl : implementation) (i : invocation) (self : Self) (w : World)
  : outcome (denote (m_ret (method_of i))) :=
  invoke (method_of i) (impl i) self (typed_arguments i) w.

(** Running a sequence of calls on one receiver. *)
Fixpoint call_all (impl : implementation) (l : list invocation) (self : Self) (w : World)
  : Self * World :=
  match l with
  | [] => (self, w)
  | i :: rest =>
      let o := call impl i self w in
      call_all impl rest (receiver o) (world o)
  end.

(** What [const] asks of a body written without casts: the members that are
    not [mutable] come back as they went in.  [shielded] projects the receiver
    to those members. *)
Definition keeps {S : Type} (shielded : Self -> S) (d : method_decl) (f : body d)
  : Prop :=
  forall self args w, shielded (receiver (invoke d f self args w)) = shielded self.

Definition respects_const {S : Type} (shielded : Self -> S) (impl : implementation)
  : Prop :=
  forall i, m_const (method_of i) = true -> keeps shielded (method_of i) (impl i).
End Bodies.

Arguments returned {Self World R} _.
Arguments receiver {Self World R} _.
Arguments world {Self World R} _.
Arguments invoke {Self World} d _ _ _ _.
Arguments call {Self World} impl i self w.
Arguments call_all {Self World} impl l self w.
Arguments keeps {Self World S} shielded d f.
Arguments respects_const {Self World S} shielded impl.

(** The payloads of the [onProgress] calls of a sequence, in order. *)
Fixpoint progress_payloads (l : list invocation) : list double :=
  match l with
  | [] => []
  | onProgress v :: rest => v :: progress_payloads rest
  | _ :: rest => progress_payloads rest
  end.

(** How often the method named [n] is invoked in a sequence. *)
Definition occurrences (n : string) (l : list invocation) : nat :=
  length (filter (fun i => String.eqb (name_of i) n) l).

(** The expected range of a progress fraction, and the order of successive
    ones, with IEEE comparisons. *)
Definition in_unit_interval (v : double) : bool :=
  PrimFloat.leb 0%float v && PrimFloat.leb v 1%float.

Fixpoint nondecreasing (l : list double) : bool :=
  match l with
  | [] => true
  | a :: rest =>
      match rest with
      | [] => true
      | b :: _ => PrimFloat.leb a b && nondecreasing rest
      end
  end.

End Emitter.

(* ------------------------------------------------------------------------- *)
(** ** The load lifecycle *)

Module Lifecycle.
Import Cpp Decl Emitter.

(** Modelled from the spec: the image-loading subsystem that calls the six
    methods is not part of the header, so the phases of one load attempt are
    read off the operation table: not yet begun; begun ("image loading has
    begun"); completed successfully ("successful completion"); failed ("load
    failure"); and past "the terminal point of a load attempt". *)
Inductive phase : Type :=
| NotStarted
| Loading
| Succeeded
| Failed
| Ended.

(** Modelled from the spec: the caller of the six methods is missing from the
    sources; each transition is one row of the operation table.
    - [onLoadStart]: "fires at most once per load attempt, before any other
      image event for that attempt": only out of [NotStarted], and nothing
      else is allowed there.
    - [onProgress]: "may fire zero or more times between onLoadStart and
      onLoadEnd": anywhere after the start and before the end; the payload is
      not inspected.
    - [onPartialLoad]: an "intermediate render ... prior to full completion":
      while loading.
    - [onLoad] / [onError]: "successful completion" / "load failure; mutually
      exclusive with onLoad": the two ways out of [Loading].
    - [onLoadEnd]: "the terminal point of a load attempt (success or failure);
      fires after onLoad or onError". *)
Definition step (p : phase) (i : invocation) : option phase :=
  match p, i with
  | NotStarted, onLoadStart => Some Loading
  | Loading, onProgress _ => Some Loading
  | Loading, onPartialLoad => Some Loading
  | Loading, onLoad => Some Succeeded
  | Loading, onError => Some Failed
  | Succeeded, onProgress _ => Some Succeeded
  | Succeeded, onLoadEnd => Some Ended
  | Failed, onProgress _ => Some Failed
  | Failed, onLoadEnd => Some Ended
  | _, _ => None
  end.

(** Modelled from the spec: following a sequence of calls through the phases;
    [None] when some call comes out of order. *)
Fixpoint run (p : phase) (l : list invocation) : option phase :=
  match l with
  | [] => Some p
  | i :: rest =>
      match step p i with
      | Some q => run q rest
      | None => None
      end
  end.

(** Modelled from the spec: a load attempt is "one complete cycle of
    attempting to fetch/decode an image resource, from start to a terminal
    outcome": the calls of a valid attempt lead from [NotStarted] to [Ended]. *)
Definition valid_attempt (l : list invocation) : bool :=
  match run NotStarted l with
  | Some Ended => true
  | _ => false
  end.

(** Modelled from the spec: "onProgress payload values, if validated, fall
    within [0.0, 1.0] and are non-decreasing across successive calls"; the
    validating code is absent from the sources. A validating caller checks each
    payload, before passing it on, against the range and against the payload it
    passed last. *)
Definition admissible (last : option double) (v : double) : bool :=
  in_unit_interval v &&
  match last with
  | None => true
  | Some p => PrimFloat.leb p v
  end.

Fixpoint validated_from (last : option double) (l : list double) : bool :=
  match l with
  | [] => true
  | v :: rest => admissible last v && validated_from (Some v) rest
  end.

Definition validated (l : list invocation) : bool :=
  validated_from None (progress_payloads l).

(** Modelled from the spec: the validating code is absent from the sources.
    Validation as something done to the calls on their way to the emitter: an
    [onProgress] whose payload is not admissible after the last payload let
    through is dropped, every other call passes. *)
Fixpoint guard_from (last : option double) (l : list invocation) : list invocation :=
  match l with
  | [] => []
  | onProgress v :: rest =>
      if admissible last v
      then onProgress v :: guard_from (Some v) rest
      else guard_from last rest
  | i :: rest => i :: guard_from last rest
  end.

Definition guard (l : list invocation) : list invocation := guard_from None l.

End Lifecycle.

(* ------------------------------------------------------------------------- *)
(** ** Concrete inputs *)

Module Samples.
Import Cpp Decl Emitter Lifecycle.

Local Set Warnings "-inexact-float".

(** The scenarios of the specification's section 8. *)
Definition scenario_success : list invocation :=
  [onLoadStart; onProgress 0.3%float; onProgress 0.7%float; onLoad; onLoadEnd].

Definition scenario_failure : list invocation :=
  [onLoadStart; onError; onLoadEnd].

Definition scenario_load_then_error : list invocation :=
  [onLoadStart; onLoad; onError].

(** An attempt with a progressive render and a late progress report. *)
Definition scenario_progressive : list invocation :=
  [onLoadStart; onPartialLoad; onProgress 0.5%float; onLoad; onProgress 1%float; onLoadEnd].

(** Calls in lifecycle order whose payloads go down and leave the unit
    interval. *)
Definition scenario_unvalidated : list invocation :=
  [onLoadStart; onProgress 0.75%float; onProgress 0.25%float; onProgress 2%float;
   onLoad; onLoadEnd].

(** A stand-in for the base class, to run the statements about inheritance on
    a concrete declaration: one member function per access level. *)
Definition stub_ViewEventEmitter : class_decl :=
  {| c_name := "ViewEventEmitter";
     c_bases := [];
     c_members :=
       [ (Public, Method (MethodDecl "onLayout" TVoid [] true));
         (Protected, Method (MethodDecl "dispatchEvent" TVoid [] true));
         (Private, Method (MethodDecl "detail" TVoid [] false)) ] |}.

(** For contrast, a class that does keep state: one data member and a
    non-const member function that overwrites it. *)
Definition setProgress_decl : method_decl :=
  MethodDecl "setProgress" TVoid [TDouble] false.

Definition stateful_sample : class_decl :=
  {| c_name := "ProgressHolder";
     c_bases := [];
     c_members :=
       [ (Private, DataMember "progress_" TDouble false);
         (Public, Method setProgress_decl) ] |}.

(** A stand-in for the state of the base subobject, with one member of each
    kind: a tag that is not [mutable] and a [mutable] counter. *)
Definition tagged_counter : Type := (nat * nat)%type.

Definition tag (o : object tagged_counter ImageEventEmitter) : nat :=
  fst (base_subobject o).

Definition bump (o : object tagged_counter ImageEventEmitter)
  : object tagged_counter ImageEventEmitter :=
  Object (fst (base_subobject o), S (snd (base_subobject o))) (own_part o).

(** An implementation whose six bodies, all of them for [const] methods, bump
    the mutable counter of the base subobject and touch nothing else. *)
Definition counting_impl
  : implementation (object tagged_counter ImageEventEmitter) unit :=
  fun i =>
    match i as j
      return body (object tagged_counter ImageEventEmitter) unit (method_of j)
    with
    | onLoadStart => fun self _ w => (tt, bump self, w)
    | onLoad => fun self _ w => (tt, bump self, w)
    | onLoadEnd => fun self _ w => (tt, bump self, w)
    | onProgress _ => fun self _ w => (tt, bump self, w)
    | onError => fun self _ w => (tt, bump self, w)
    | onPartialLoad => fun self _ w => (tt, bump self, w)
    end.

(** An implementation that appends the name of the invoked method to a log
    and leaves the receiver, a number, as it is. *)
Definition logging_impl : implementation nat (list string) :=
  fun i =>
    match i as j return body nat (list string) (method_of j) with
    | onLoadStart => fun self _ w => (tt, self, w ++ [name_of onLoadStart])
    | onLoad => fun self _ w => (tt, self, w ++ [name_of onLoad])
    | onLoadEnd => fun self _ w => (tt, self, w ++ [name_of onLoadEnd])
    | onProgress v => fun self _ w => (tt, self, w ++ [name_of (onProgress v)])
    | onError => fun self _ w => (tt, self, w ++ [name_of onError])
    | onPartialLoad => fun self _ w => (tt, self, w ++ [name_of onPartialLoad])
    end.

End Samples.

(* ------------------------------------------------------------------------- *)
(** ** Call sites with a const receiver *)

Module CallSites.
Import Cpp Decl Emitter.

(** A call [e.n(args)] where [e] may be an expression of const-qualified
    class type (a reference or pointer to const), judged like [accepts_call]
    by the class's own declarations: on top of what [accepts_call] checks, a
    member function that is not declared [const] cannot be called on a const
    receiver. *)
Definition accepts_call_on (receiver_const : bool) (c : class_decl) (n : string)
           (args : list value) : bool :=
  match find_method (own_methods_acc (c_members c)) n with
  | Some (Public, d) =>
      (m_const d || negb receiver_const) && well_typed_args args (m_params d)
  | _ => false
  end.

End CallSites.

(* ------------------------------------------------------------------------- *)
(** ** Facts about the declaration *)

Module DeclFacts.
Import Cpp Decl Emitter Samples.

Lemma own_methods_ImageEventEmitter :
  own_methods ImageEventEmitter =
  [onLoadStart_decl; onLoad_decl; onLoadEnd_decl; onProgress_decl; onError_decl;
   onPartialLoad_decl].
Proof. reflexivity. Qed.

(** The invocations are the declared methods, one for one. *)
Lemma own_methods_are_invocations :
  own_methods ImageEventEmitter =
  map method_of
      [onLoadStart; onLoad; onLoadEnd; onProgress 0%float; onError; onPartialLoad].
Proof. reflexivity. Qed.

Lemma method_of_declared (i : invocation) :
  In (method_of i) (own_methods ImageEventEmitter).
Proof.
  rewrite own_methods_ImageEventEmitter.
  destruct i; simpl; auto 7.
Qed.

Lemma arguments_well_typed (i : invocation) :
  accepts_call ImageEventEmitter (name_of i) (arguments i) = true.
Proof. destruct i; reflexivity. Qed.

(** A name the class declares resolves to the class's own declaration,
    whatever the bases hold. *)
Lemma resolve_declared (env : class_env) (c : class_decl) (n : string) :
  declares c n = true -> origin_of (resolve env c n) = Some Own.
Proof.
  unfold declares, resolve.
  destruct (find_method (own_methods_acc (c_members c)) n) as [[a d]|]; simpl.
  - reflexivity.
  - discriminate.
Qed.

(** A name the class does not declare goes to the bases. *)
Lemma resolve_not_declared (env : class_env) (c : class_decl) (n : string) :
  declares c n = false ->
  resolve env c n = first_some (lookup_in_base env n) (c_bases c).
Proof.
  unfold declares, resolve.
  destruct (find_method (own_methods_acc (c_members c)) n) as [[a d]|].
  - discriminate.
  - reflexivity.
Qed.

Lemma declares_notification (n : string) :
  declares ImageEventEmitter n = is_notification_name n.
Proof.
  cbv [declares is_notification_name notification_names existsb find_method
       own_methods_acc c_members ImageEventEmitter m_name onLoadStart_decl
       onLoad_decl onLoadEnd_decl onProgress_decl onError_decl onPartialLoad_decl].
  rewrite !(String.eqb_sym _ n).
  repeat (destruct (String.eqb n _); [reflexivity|]).
  reflexivity.
Qed.

End DeclFacts.

(* ------------------------------------------------------------------------- *)
(** ** The interface claims *)

Module Interface.
Import Cpp Decl Emitter Samples DeclFacts.

(** Public inheritance leaves the access of an accessible base member as it is. *)
Lemma inherited_access_public (a : access) :
  a <> Private -> inherited_access Public a = Some a.
Proof. destruct a; simpl; congruence. Qed.

Lemma method_of_const (i : invocation) : m_const (method_of i) = true.
Proof. destruct i; reflexivity. Qed.

(** C1, as stated, does not hold of the header: the public section holds a
    member that is none of the six notification methods (the using-declaration
    that brings in the base's constructors), and a notification method such as
    [onLoad] resolves to the class's own declaration, under every environment
    of base classes, so it is not inherited. *)
Lemma C1_not_solely_inherited_methods :
  (In (UsingConstructors "ViewEventEmitter") (public_members ImageEventEmitter)
   /\ is_notification_method (UsingConstructors "ViewEventEmitter") = false)
  /\ (In "onLoad" notification_names
      /\ forall env : class_env,
           origin_of (resolve env ImageEventEmitter "onLoad") = Some Own).
Proof.
  split; [split; [simpl; auto | reflexivity] |].
  split; [simpl; auto | intros env; reflexivity].
Qed.

(** C1, amended: the member functions [ImageEventEmitter] declares are exactly
    the six notification methods [onLoadStart], [onLoad], [onLoadEnd],
    [onProgress], [onError], [onPartialLoad], all of them public; the only other
    member of its public section is the using-declaration for the constructors
    of [ViewEventEmitter]; and each of the six resolves to the class's own
    declaration, not to an inherited one, whatever the base declares. *)
Theorem C1_declared_surface :
  public_method_names ImageEventEmitter = notification_names
  /\ map m_name (own_methods ImageEventEmitter) = notification_names
  /\ public_members ImageEventEmitter =
     UsingConstructors "ViewEventEmitter" :: map Method (own_methods ImageEventEmitter)
  /\ length (public_members ImageEventEmitter) = length (c_members ImageEventEmitter)
  /\ Forall (fun n => forall env : class_env,
                 origin_of (resolve env ImageEventEmitter n) = Some Own)
            notification_names.
Proof.
  repeat split; try reflexivity.
  repeat constructor.
Qed.

(** C2: each of the six operations returns [void], which denotes the one-point
    type; [onProgress] takes exactly one parameter, a [double], and the other
    five take none; accordingly a call of one of the six is accepted with one
    double for [onProgress] and with no argument for the other five. *)
Theorem C2_signatures :
  Forall (fun d => m_ret d = TVoid
                   /\ m_params d =
                      if String.eqb (m_name d) "onProgress" then [TDouble] else [])
         (own_methods ImageEventEmitter)
  /\ (forall i : invocation,
        denote (m_ret (method_of i)) = unit
        /\ arguments i = match i with onProgress v => [VDouble v] | _ => [] end
        /\ denote_params (m_params (method_of i)) =
           match i with onProgress _ => (double * unit)%type | _ => unit end)
  /\ (forall (i : invocation) (args : list value),
        accepts_call ImageEventEmitter (name_of i) args =
        match i with
        | onProgress _ => match args with [VDouble _] => true | _ => false end
        | _ => match args with [] => true | _ => false end
        end).
Proof.
  split; [repeat constructor | split].
  - intros i; destruct i; repeat split.
  - intros i args. destruct i.
    5: destruct args; reflexivity.
    4: destruct args as [|[x] [|y args]]; reflexivity.
    all: destruct args; reflexivity.
Qed.

(** C7: the class declares no data member, so the state an [ImageEventEmitter]
    adds to its base is the one-point type: any two such states are equal, a
    function that reads it is constant, a function that updates it is the
    identity, and an object is determined by its base subobject. *)
Theorem C7_no_own_state :
  own_fields ImageEventEmitter = []
  /\ (forall s1 s2 : own_state ImageEventEmitter, s1 = s2)
  /\ (forall (A : Type) (read : own_state ImageEventEmitter -> A) s1 s2,
        read s1 = read s2)
  /\ (forall (write : own_state ImageEventEmitter -> own_state ImageEventEmitter) s,
        write s = s)
  /\ (forall (B : Type) (o : object B ImageEventEmitter),
        o = @Object B ImageEventEmitter (base_subobject o) tt).
Proof.
  assert (U : forall s1 s2 : own_state ImageEventEmitter, s1 = s2)
    by (intros [] []; reflexivity).
  repeat split.
  - exact U.
  - intros A read s1 s2. f_equal. apply U.
  - intros write s. apply U.
  - intros B [b []]. reflexivity.
Qed.






(** C10: the parameter of [onProgress] is a plain [double]; the interface
    accepts [onProgress(v)] for every double [v], and in particular for a
    negative value, a value above one, the infinities and a NaN, none of which
    lies in the unit interval. *)
Theorem C10_any_double_accepted :
  m_params onProgress_decl = [TDouble]
  /\ (forall v : double,
        accepts_call ImageEventEmitter "onProgress" [VDouble v] = true)
  /\ (PrimFloat.ltb (-1)%float 0%float = true
      /\ in_unit_interval (-1)%float = false
      /\ accepts_call ImageEventEmitter "onProgress" [VDouble (-1)%float] = true)
  /\ (PrimFloat.ltb 1%float 2%float = true
      /\ in_unit_interval 2%float = false
      /\ accepts_call ImageEventEmitter "onProgress" [VDouble 2%float] = true)
  /\ (PrimFloat.is_infinity infinity = true
      /\ in_unit_interval infinity = false
      /\ accepts_call ImageEventEmitter "onProgress" [VDouble infinity] = true)
  /\ (PrimFloat.is_infinity neg_infinity = true
      /\ in_unit_interval neg_infinity = false
      /\ accepts_call ImageEventEmitter "onProgress" [VDouble neg_infinity] = true)
  /\ (PrimFloat.is_nan nan = true
      /\ in_unit_interval nan = false
      /\ accepts_call ImageEventEmitter "onProgress" [VDouble nan] = true).
Proof.
  repeat split.
Qed.

(** The statement about own state depends on the declaration: a class with
    a data member has distinguishable states of its own. *)
Example stateful_sample_has_state :
  exists s1 s2 : own_state stateful_sample, s1 <> s2.
Proof.
  exists (0%float, tt), (1%float, tt). intros H.
  apply (f_equal (fun s : double * unit => PrimFloat.ltb (fst s) 1%float)) in H.
  vm_compute in H. discriminate H.
Qed.

(** The counting implementation over the successful scenario: five calls,
    the counter at five, the tag as it was. *)
Example counting_run :
  base_subobject
    (fst (call_all counting_impl scenario_success
                   (@Object tagged_counter ImageEventEmitter (7, 0) tt) tt))
  = (7, 5).
Proof. reflexivity. Qed.

(** The recording implementation, run on the successful scenario: the
    receiver comes back untouched and the log holds the calls in order. *)
Example logging_run :
  call_all logging_impl scenario_success 7 [] =
  (7, ["onLoadStart"; "onProgress"; "onProgress"; "onLoad"; "onLoadEnd"]).
Proof. reflexivity. Qed.

End Interface.

(* ------------------------------------------------------------------------- *)
(** ** Facts about the load lifecycle *)

Module LifecycleFacts.
Import Cpp Decl Emitter Lifecycle Samples.

Ltac by_phase p i H :=
  destruct p, i; simpl in H; try discriminate H.

Lemma occurrences_cons (n : string) (i : invocation) (l : list invocation) :
  occurrences n (i :: l) =
  (if String.eqb (name_of i) n then 1 else 0) + occurrences n l.
Proof.
  unfold occurrences. simpl. destruct (String.eqb (name_of i) n); reflexivity.
Qed.

Lemma In_occurrences (i : invocation) (l : list invocation) :
  In i l -> 1 <= occurrences (name_of i) l.
Proof.
  induction l as [|j l IH]; simpl; [tauto|].
  rewrite occurrences_cons. intros [->|H].
  - rewrite String.eqb_refl. lia.
  - specialize (IH H). lia.
Qed.

Lemma run_app (p : phase) (l1 l2 : list invocation) :
  run p (l1 ++ l2) =
  match run p l1 with
  | Some q => run q l2
  | None => None
  end.
Proof.
  revert p. induction l1 as [|i l1 IH]; intros p; simpl.
  - reflexivity.
  - destruct (step p i); [apply IH | reflexivity].
Qed.

(** A valid attempt opens with [onLoadStart]. *)
Lemma valid_attempt_opens (l : list invocation) :
  valid_attempt l = true ->
  exists rest, l = onLoadStart :: rest /\ run Loading rest = Some Ended.
Proof.
  unfold valid_attempt. destruct l as [|i rest]; simpl; [discriminate|].
  destruct i; simpl; try discriminate.
  intros H. exists rest. split; [reflexivity|].
  destruct (run Loading rest) as [[]|]; try discriminate. reflexivity.
Qed.

Lemma valid_attempt_run (l : list invocation) :
  valid_attempt l = true -> run NotStarted l = Some Ended.
Proof.
  unfold valid_attempt.
  destruct (run NotStarted l) as [[]|]; try discriminate. reflexivity.
Qed.

(** Only the first phase lets [onLoadStart] through, and no phase leads back
    to it. *)
Lemma start_count (l : list invocation) :
  forall p q, run p l = Some q ->
  occurrences "onLoadStart" l <= match p with NotStarted => 1 | _ => 0 end.
Proof.
  induction l as [|i l IH]; intros p q H.
  - unfold occurrences. destruct p; simpl; lia.
  - rewrite occurrences_cons.
    by_phase p i H; apply IH in H; simpl in *; lia.
Qed.

(** On the way to [Ended], [onLoadEnd] is met once, unless the attempt is
    already over. *)
Lemma end_count (l : list invocation) :
  forall p, run p l = Some Ended ->
  occurrences "onLoadEnd" l = match p with Ended => 0 | _ => 1 end.
Proof.
  induction l as [|i l IH]; intros p H.
  - simpl in H. inversion H. reflexivity.
  - rewrite occurrences_cons.
    by_phase p i H; apply IH in H; simpl in *; lia.
Qed.

(** On the way to [Ended], the two outcomes together are met once while the
    outcome is open, and never after. *)
Lemma outcome_count (l : list invocation) :
  forall p, run p l = Some Ended ->
  occurrences "onLoad" l + occurrences "onError" l =
  match p with NotStarted | Loading => 1 | _ => 0 end.
Proof.
  induction l as [|i l IH]; intros p H.
  - simpl in H. inversion H. reflexivity.
  - rewrite !occurrences_cons.
    by_phase p i H; apply IH in H; simpl in *; lia.
Qed.

(** A run that gets from an open phase to a decided one has passed [onLoad]
    or [onError]. *)
Lemma outcome_reached (l : list invocation) :
  forall p q, run p l = Some q ->
  p = NotStarted \/ p = Loading ->
  q = Succeeded \/ q = Failed ->
  In onLoad l \/ In onError l.
Proof.
  induction l as [|i l IH]; intros p q H Hp Hq.
  - simpl in H. inversion H; subst q.
    destruct Hp as [->| ->], Hq as [E|E]; discriminate E.
  - by_phase p i H;
      try (destruct Hp as [E|E]; discriminate E);
      try (left; left; reflexivity);
      try (right; left; reflexivity);
      (destruct (IH _ _ H) as [K|K]; [auto | assumption | left; right; exact K
                                       | right; right; exact K]).
Qed.

Lemma step_onLoadEnd (p q : phase) :
  step p onLoadEnd = Some q -> p = Succeeded \/ p = Failed.
Proof. destruct p; simpl; try discriminate; auto. Qed.

(** The validating caller, seen as a property of the payload list. *)
Lemma validated_from_sound (l : list double) :
  forall last, validated_from last l = true ->
  Forall (fun v => in_unit_interval v = true) l
  /\ forall pre a b post, l = pre ++ a :: b :: post -> PrimFloat.leb a b = true.
Proof.
  induction l as [|v l IH]; intros last H.
  - split; [constructor|]. intros [|] ? ? ? E; discriminate E.
  - simpl in H. apply andb_prop in H. destruct H as [Hv Hl].
    unfold admissible in Hv. apply andb_prop in Hv. destruct Hv as [Hr _].
    destruct (IH _ Hl) as [IHr IHo]. split; [constructor; assumption|].
    intros pre a b post E. destruct pre as [|x pre]; simpl in E.
    + inversion E; subst. simpl in Hl. apply andb_prop in Hl.
      destruct Hl as [Hb _]. unfold admissible in Hb.
      apply andb_prop in Hb. tauto.
    + inversion E; subst. eapply IHo. reflexivity.
Qed.

Lemma validated_from_spec (l : list double) :
  forall p, validated_from (Some p) l =
            forallb in_unit_interval l && nondecreasing (p :: l).
Proof.
  induction l as [|v l IH]; intros p.
  - reflexivity.
  - change (validated_from (Some p) (v :: l))
      with (admissible (Some p) v && validated_from (Some v) l).
    rewrite IH. unfold admissible.
    change (nondecreasing (p :: v :: l))
      with (PrimFloat.leb p v && nondecreasing (v :: l)).
    simpl forallb.
    destruct (in_unit_interval v), (PrimFloat.leb p v),
      (forallb in_unit_interval l), (nondecreasing (v :: l)); reflexivity.
Qed.

(** Validation is the conjunction of the two conditions of the expectation. *)
Lemma validated_spec (l : list invocation) :
  validated l =
  forallb in_unit_interval (progress_payloads l) && nondecreasing (progress_payloads l).
Proof.
  unfold validated. destruct (progress_payloads l) as [|v r].
  - reflexivity.
  - change (validated_from None (v :: r))
      with (admissible None v && validated_from (Some v) r).
    rewrite validated_from_spec. unfold admissible. simpl forallb.
    destruct (in_unit_interval v), (forallb in_unit_interval r),
      (nondecreasing (v :: r)); reflexivity.
Qed.

(** A progress report never moves the attempt to another phase. *)
Lemma step_progress_stays (p q : phase) (v : double) :
  step p (onProgress v) = Some q -> q = p.
Proof. destruct p; simpl; intros H; inversion H; reflexivity. Qed.

(** Dropping progress reports does not disturb the lifecycle. *)
Lemma run_guard_from (l : list invocation) :
  forall p q last, run p l = Some q -> run p (guard_from last l) = Some q.
Proof.
  induction l as [|i l IH]; intros p q last H; [exact H|].
  simpl in H. destruct (step p i) as [p'|] eqn:S; [|discriminate H].
  destruct i; simpl; try (rewrite S; apply IH; exact H).
  destruct (admissible last progress).
  - simpl. rewrite S. apply IH. exact H.
  - apply step_progress_stays in S. subst p'. apply IH. exact H.
Qed.

(** What the guard lets through passes the check it applies. *)
Lemma guard_from_validated (l : list invocation) :
  forall last, validated_from last (progress_payloads (guard_from last l)) = true.
Proof.
  induction l as [|i l IH]; intros last; [reflexivity|].
  destruct i; simpl; try apply IH.
  destruct (admissible last progress) eqn:A.
  - simpl. rewrite A. apply IH.
  - apply IH.
Qed.

(** Calls whose payloads pass the check go through the guard untouched. *)
Lemma guard_from_fixed (l : list invocation) :
  forall last, validated_from last (progress_payloads l) = true ->
               guard_from last l = l.
Proof.
  induction l as [|i l IH]; intros last H; [reflexivity|].
  destruct i; simpl in *; try (f_equal; apply IH; exact H).
  apply andb_prop in H. destruct H as [A H]. rewrite A.
  f_equal. apply IH. exact H.
Qed.

End LifecycleFacts.

(* ------------------------------------------------------------------------- *)
(** ** The lifecycle claims *)

Module Attempt.
Import Cpp Decl Emitter Lifecycle Samples LifecycleFacts.

(** The scenarios of the specification: the two valid ones are valid, and
    [onError] after [onLoad] is not. *)
Example scenario_success_valid : valid_attempt scenario_success = true.
Proof. reflexivity. Qed.

Example scenario_failure_valid : valid_attempt scenario_failure = true.
Proof. reflexivity. Qed.

Example scenario_load_then_error_invalid :
  valid_attempt scenario_load_then_error = false.
Proof. reflexivity. Qed.

Example scenario_progressive_valid : valid_attempt scenario_progressive = true.
Proof. reflexivity. Qed.

(** Every call of a sequence of invocations is accepted by the interface. *)
Lemma invocations_accepted (l : list invocation) :
  forallb (fun i => accepts_call ImageEventEmitter (name_of i) (arguments i)) l = true.
Proof.
  apply forallb_forall. intros i _. apply DeclFacts.arguments_well_typed.
Qed.

(** C3: in the calls of a valid load attempt, every call other than
    [onLoadStart] (that is, every [onProgress], [onLoad], [onError],
    [onPartialLoad] and [onLoadEnd]) has an [onLoadStart] before it, and
    [onLoadStart] occurs at most once. *)
Theorem C3_onLoadStart_first_and_once (l : list invocation) :
  valid_attempt l = true ->
  (forall pre i post, l = pre ++ i :: post -> i <> onLoadStart -> In onLoadStart pre)
  /\ occurrences "onLoadStart" l <= 1.
Proof.
  intros V. split.
  - destruct (valid_attempt_opens l V) as [rest [E _]]. subst l.
    intros pre i post E Hi. destruct pre as [|j pre]; simpl in E.
    + inversion E. congruence.
    + inversion E. left. reflexivity.
  - apply (start_count l NotStarted Ended). apply valid_attempt_run, V.
Qed.

(** The statement above at the successful scenario. *)
Lemma C3_onLoadStart_first_and_once_witness :
  valid_attempt scenario_success = true
  /\ (forall pre i post,
        scenario_success = pre ++ i :: post -> i <> onLoadStart -> In onLoadStart pre)
  /\ occurrences "onLoadStart" scenario_success <= 1.
Proof.
  split; [reflexivity|].
  apply (C3_onLoadStart_first_and_once scenario_success). reflexivity.
Defined.

(** C4: in the calls of a valid load attempt, [onLoadEnd] occurs exactly
    once, and an [onLoad] or an [onError] comes before it. *)
Theorem C4_onLoadEnd_once_after_outcome (l : list invocation) :
  valid_attempt l = true ->
  occurrences "onLoadEnd" l = 1
  /\ forall pre post, l = pre ++ onLoadEnd :: post -> In onLoad pre \/ In onError pre.
Proof.
  intros V. apply valid_attempt_run in V. split.
  - apply (end_count l NotStarted V).
  - intros pre post E. subst l. rewrite run_app in V.
    destruct (run NotStarted pre) as [q|] eqn:R; [|discriminate V].
    simpl in V. destruct (step q onLoadEnd) as [q'|] eqn:S; [|discriminate V].
    apply (outcome_reached pre NotStarted q R); [left; reflexivity|].
    exact (step_onLoadEnd q q' S).
Qed.

(** The statement above at the failing scenario. *)
Lemma C4_onLoadEnd_once_after_outcome_witness :
  valid_attempt scenario_failure = true
  /\ occurrences "onLoadEnd" scenario_failure = 1
  /\ forall pre post,
       scenario_failure = pre ++ onLoadEnd :: post -> In onLoad pre \/ In onError pre.
Proof.
  split; [reflexivity|].
  apply (C4_onLoadEnd_once_after_outcome scenario_failure). reflexivity.
Defined.

(** C5: the calls of a valid load attempt do not hold both an [onLoad] and an
    [onError]. *)
Theorem C5_onLoad_onError_exclusive (l : list invocation) :
  valid_attempt l = true -> ~ (In onLoad l /\ In onError l).
Proof.
  intros V [HL HE]. apply valid_attempt_run in V.
  pose proof (outcome_count l NotStarted V) as C. simpl in C.
  apply In_occurrences in HL. apply In_occurrences in HE.
  change (name_of onLoad) with "onLoad" in HL.
  change (name_of onError) with "onError" in HE.
  lia.
Qed.

(** The statement above at the progressive scenario. *)
Lemma C5_onLoad_onError_exclusive_witness :
  valid_attempt scenario_progressive = true
  /\ ~ (In onLoad scenario_progressive /\ In onError scenario_progressive).
Proof.
  split; [reflexivity|].
  apply (C5_onLoad_onError_exclusive scenario_progressive). reflexivity.
Defined.




End Attempt.

(* ------------------------------------------------------------------------- *)
(** ** Further facts about the declared interface *)

Module Surface.
Import Cpp Decl Emitter Samples CallSites DeclFacts.

(** For each of the six notification methods, whether the receiver is const
    makes no difference: with any argument list, the call is accepted through
    a reference or pointer to const exactly when it is accepted on a mutable
    [ImageEventEmitter]. *)
Theorem const_receiver_accepts_the_same (receiver_const : bool) (i : invocation)
        (args : list value) :
  accepts_call_on receiver_const ImageEventEmitter (name_of i) args
  = accepts_call ImageEventEmitter (name_of i) args.
Proof. destruct i; reflexivity. Qed.

(** The check is not idle: a member function that is not [const] is refused
    on a const receiver and accepted on a mutable one. *)
Example nonconst_refused_on_const_receiver :
  accepts_call_on true stateful_sample "setProgress" [VDouble 1%float] = false
  /\ accepts_call_on false stateful_sample "setProgress" [VDouble 1%float] = true.
Proof. split; reflexivity. Qed.

End Surface.
